(** * reverb: the base class of table extensions

    A shallow embedding of [reverb/cc/table_extensions/base.cc]
    ([PriorityTableExtensionBase]) and the properties of its registration
    protocol and of its hook dispatch.

    The methods are written in a small state-and-failure monad over the
    object they are called on.  Besides returning, a call can end in two
    other ways: the process is aborted by a failed [REVERB_CHECK_EQ], or
    the call dereferences a pointer that does not point to a live object,
    which has no defined behaviour in C++. *)

From Stdlib Require Import HexString.
From stdpp Require Import base decidable option list strings gmap.

Local Open Scope string_scope.
Local Open Scope list_scope.
Local Open Scope nat_scope.

(** ** Pointers and the objects they point to *)

(** A [Table*] or [absl::Mutex*]: null, or the address of an object. *)
Inductive pointer : Type :=
  | nullptr
  | addr (l : positive).

#[global] Instance pointer_eq_dec : EqDecision pointer.
Proof. solve_decision. Defined.

(** The conversion of a pointer to [bool], as in [if (table_)]. *)
Definition to_bool (p : pointer) : bool :=
  match p with
  | nullptr => false
  | addr _ => true
  end.

(** Of a [Table] the extension reads only its name. *)
Record Table : Type := { name : string }.

(** The live [Table] objects, by address. *)
Abbreviation tables := (gmap positive Table).

Definition deref (h : tables) (p : pointer) : option Table :=
  match p with
  | nullptr => None
  | addr l => h !! l
  end.

(** ** [tensorflow::Status] *)

Inductive Code : Type :=
  | OK
  | CANCELLED
  | UNKNOWN
  | INVALID_ARGUMENT
  | DEADLINE_EXCEEDED
  | NOT_FOUND
  | ALREADY_EXISTS
  | PERMISSION_DENIED
  | UNAUTHENTICATED
  | RESOURCE_EXHAUSTED
  | FAILED_PRECONDITION
  | ABORTED
  | OUT_OF_RANGE
  | UNIMPLEMENTED
  | INTERNAL
  | UNAVAILABLE
  | DATA_LOSS.

#[global] Instance Code_eq_dec : EqDecision Code.
Proof. solve_decision. Defined.

Record Status : Type := { code : Code; error_message : string }.

#[global] Instance Status_eq_dec : EqDecision Status.
Proof. solve_decision. Defined.

Definition Status_OK : Status := {| code := OK; error_message := "" |}.

Definition ok (s : Status) : bool := bool_decide (code s = OK).

(** [tensorflow::errors::FailedPrecondition(args...)]: the arguments,
    already rendered as text, are concatenated into the message. *)
Definition FailedPrecondition (args : list string) : Status :=
  {| code := FAILED_PRECONDITION; error_message := String.concat "" args |}.

(** ** Outcomes of a call *)

Inductive outcome (A : Type) : Type :=
  | Returns (a : A)
  | Aborts (msg : string)
  | Undefined.

Arguments Returns {A} a.
Arguments Aborts {A} msg.
Arguments Undefined {A}.

Definition returns {A} (o : outcome A) : bool :=
  match o with
  | Returns _ => true
  | _ => false
  end.

(** Computations over a state [S]. *)
Definition M (S A : Type) : Type := S → outcome (A * S).

Definition ret {S A} (a : A) : M S A := λ s, Returns (a, s).

Definition bind {S A B} (m : M S A) (k : A → M S B) : M S B :=
  λ s, match m s with
       | Returns (a, s') => k a s'
       | Aborts msg => Aborts msg
       | Undefined => Undefined
       end.

Definition get {S} : M S S := λ s, Returns (s, s).
Definition put {S} (s : S) : M S unit := λ _, Returns (tt, s).
Definition modify {S} (f : S → S) : M S unit := λ s, Returns (tt, f s).
Definition abort {S A} (msg : string) : M S A := λ _, Aborts msg.
Definition undefined {S A} : M S A := λ _, Undefined.

(** The monad structure, with stdpp's notations [x ← m; k] and [m;; k]. *)
#[global] Instance M_ret {S} : MRet (M S) := λ A, ret.
#[global] Instance M_bind {S} : MBind (M S) := λ A B k m, bind m k.

(** The outcome is a return, and the result and final state satisfy [P]. *)
Definition returns_with {S A} (o : outcome (A * S)) (P : A → S → Prop) : Prop :=
  match o with
  | Returns (a, s) => P a s
  | _ => False
  end.

(** ** The class [PriorityTableExtensionBase] *)

Section PriorityTableExtensionBase.

(** [PriorityTableItem] is opaque to the base class, which only hands the
    reference it received to a hook.  [D] stands for the data members a
    subclass adds. *)
Context {PriorityTableItem D : Type}.

(** The text [operator<<] prints for a pointer; its format is left to the
    C++ implementation. *)
Variable show : pointer → string.

(** The live tables. *)
Variable h : tables.

(** Modelled from the spec: the class declaration ([base.h]) is not among
    the sources.  An extension keeps a back-reference to the table it is
    bound to, absent when it is unregistered. *)
Record PriorityTableExtensionBase : Type :=
  { table_ : pointer; derived : D }.

(** The calls of the overridable methods. *)
Inductive call : Type :=
  | ApplyOnDelete (item : PriorityTableItem)
  | ApplyOnInsert (item : PriorityTableItem)
  | ApplyOnReset
  | ApplyOnUpdate (item : PriorityTableItem)
  | ApplyOnSample (item : PriorityTableItem).

(** Modelled from the spec: the body of an overridable method.  The
    back-reference is written by registration and unregistration only and
    is read-only elsewhere, and a hook has no error channel: a body reads
    the object and yields the new data of the subclass. *)
Definition body : Type := PriorityTableExtensionBase → D.

(** A subclass: the bodies it overrides. *)
Definition overrides : Type := call → option body.

(** The object a method runs on, together with the calls of overridable
    methods made so far (a ghost record, oldest first). *)
Record state : Type :=
  { this : PriorityTableExtensionBase; calls : list call }.

Local Abbreviation method := (M state).

Definition get_table_ : method pointer := w ← get; mret (table_ (this w)).

(** [table_ = p] *)
Definition assign_table_ (p : pointer) (w : state) : state :=
  {| this := {| table_ := p; derived := derived (this w) |};
     calls := calls w |}.

Definition set_table_ (p : pointer) : method unit := modify (assign_table_ p).

(** [table->name()] *)
Definition Table_name (table : pointer) : method string :=
  match deref h table with
  | Some T => mret (name T)
  | None => undefined
  end.

(** Modelled from the spec: the macro of [reverb/cc/platform/logging.h]
    is not among the sources.  A mismatch is fatal: the process aborts. *)
Definition REVERB_CHECK_EQ (a b : pointer) (msg : string) : method unit :=
  if decide (a = b) then mret tt else abort msg.

Definition RegisterTable (table : pointer) : method Status :=
  cur ← get_table_;
  if to_bool cur then
    n ← Table_name table;
    n' ← Table_name table;
    mret (FailedPrecondition
            ["Attempting to registering a table "; show table; " (name: "; n;
             ") with extension that has already been "; "registered with: ";
             show cur; " (name: "; n'; ")"])
  else
    set_table_ table;;
    mret Status_OK.

Definition UnregisterTable (mu : pointer) (table : pointer) : method unit :=
  cur ← get_table_;
  REVERB_CHECK_EQ table cur
    "The wrong Table attempted to unregister this extension.";;
  set_table_ nullptr.

(** The bodies of the base class: all five are empty. *)
Definition PriorityTableExtensionBase_body (c : call) : body :=
  match c with
  | ApplyOnDelete item => λ obj, derived obj
  | ApplyOnInsert item => λ obj, derived obj
  | ApplyOnReset => λ obj, derived obj
  | ApplyOnUpdate item => λ obj, derived obj
  | ApplyOnSample item => λ obj, derived obj
  end.

Section dispatch.

Variable sub : overrides.

(** The body a call resolves to. *)
Definition resolve (c : call) : body :=
  default (PriorityTableExtensionBase_body c) (sub c).

(** A virtual call on [this]. *)
Definition virtual (c : call) : method unit :=
  modify (λ w, {| this := {| table_ := table_ (this w);
                             derived := resolve c (this w) |};
                  calls := calls w ++ [c] |}).

Definition OnDelete (mu : pointer) (item : PriorityTableItem) : method unit :=
  virtual (ApplyOnDelete item).

Definition OnInsert (mu : pointer) (item : PriorityTableItem) : method unit :=
  virtual (ApplyOnInsert item).

Definition OnReset (mu : pointer) : method unit := virtual ApplyOnReset.

Definition OnUpdate (mu : pointer) (item : PriorityTableItem) : method unit :=
  virtual (ApplyOnUpdate item).

Definition OnSample (mu : pointer) (item : PriorityTableItem) : method unit :=
  virtual (ApplyOnSample item).

(** *** The calls a table issues *)

(** The notifications of a mutation of the table. *)
Inductive notification : Type :=
  | Delete (mu : pointer) (item : PriorityTableItem)
  | Insert (mu : pointer) (item : PriorityTableItem)
  | Reset (mu : pointer)
  | Update (mu : pointer) (item : PriorityTableItem)
  | Sample (mu : pointer) (item : PriorityTableItem).

Definition notify (n : notification) : method unit :=
  match n with
  | Delete mu item => OnDelete mu item
  | Insert mu item => OnInsert mu item
  | Reset mu => OnReset mu
  | Update mu item => OnUpdate mu item
  | Sample mu item => OnSample mu item
  end.

Fixpoint notify_all (ns : list notification) : method unit :=
  match ns with
  | [] => mret tt
  | n :: ns => notify n;; notify_all ns
  end.

Inductive op : Type :=
  | Register (table : pointer)
  | Unregister (mu : pointer) (table : pointer)
  | Notify (n : notification).

(** What the caller sees of a call that returned. *)
Inductive event : Type :=
  | Registered (table : pointer) (st : Status)
  | Unregistered (table : pointer)
  | Notified (n : notification).

Definition exec (o : op) : method event :=
  match o with
  | Register table => st ← RegisterTable table; mret (Registered table st)
  | Unregister mu table => UnregisterTable mu table;; mret (Unregistered table)
  | Notify n => notify n;; mret (Notified n)
  end.

(** A sequence of calls; it ends with the first call that does not
    return. *)
Fixpoint run (os : list op) : method (list event) :=
  match os with
  | [] => mret []
  | o :: os => e ← exec o; es ← run os; mret (e :: es)
  end.

End dispatch.

(** The call [o] returned after exactly one more call of an overridable
    method, [c], and the data of the subclass are what one run of the body
    that [c] resolves to, on the object as it was, yields. *)
Definition dispatches (sub : overrides) (w : state) (c : call)
    (o : outcome (unit * state)) : Prop :=
  returns_with o (λ _ w', calls w' = calls w ++ [c] ∧
                          derived (this w') = resolve sub c (this w)).

(** The call [o] returned and did not write the back-reference. *)
Definition keeps_table_ (w : state) (o : outcome (unit * state)) : Prop :=
  returns_with o (λ _ w', table_ (this w') = table_ (this w)).

(** A class that overrides nothing. *)
Definition no_overrides : overrides := λ _, None.

(** Modelled from the spec: the constructor is declared in [base.h], which
    is not among the sources.  An extension is constructed unbound. *)
Definition constructed (d : D) : state :=
  {| this := {| table_ := nullptr; derived := d |}; calls := [] |}.

(** *** The bindings a history of calls leaves

    Both are read off the events alone, oldest first. *)

(** The tables that registered successfully and did not unregister since. *)
Definition track (bs : list pointer) (e : event) : list pointer :=
  match e with
  | Registered table st =>
      if ok st && to_bool table then table :: bs else bs
  | Unregistered table => filter (λ b, b ≠ table) bs
  | Notified _ => bs
  end.

Definition bound_tables (es : list event) : list pointer := foldl track [] es.

(** The argument of the most recent successful registration that no
    unregistration followed, if there is one. *)
Definition latest (cur : option pointer) (e : event) : option pointer :=
  match e with
  | Registered table st => if ok st then Some table else cur
  | Unregistered _ => None
  | Notified _ => cur
  end.

Definition last_binding (es : list event) : option pointer :=
  foldl latest None es.

(** The tables a back-reference stands for: none when it is null. *)
Definition referenced (p : pointer) : list pointer :=
  if to_bool p then [p] else [].

End PriorityTableExtensionBase.

Arguments PriorityTableExtensionBase D : clear implicits.
Arguments call PriorityTableItem : clear implicits.
Arguments body D : clear implicits.
Arguments overrides PriorityTableItem D : clear implicits.
Arguments state PriorityTableItem D : clear implicits.
Arguments notification PriorityTableItem : clear implicits.
Arguments op PriorityTableItem : clear implicits.
Arguments event PriorityTableItem : clear implicits.


(** ** Sequences of notifications and of calls *)

Section sequences.

Context {PriorityTableItem D : Type}.

(** The overridable method a notification is dispatched to, with its
    argument. *)
Definition call_of (n : notification PriorityTableItem) : call PriorityTableItem :=
  match n with
  | Delete _ item => ApplyOnDelete item
  | Insert _ item => ApplyOnInsert item
  | Reset _ => ApplyOnReset
  | Update _ item => ApplyOnUpdate item
  | Sample _ item => ApplyOnSample item
  end.

(** The data of the subclass after the body of [c] ran on an object with
    back-reference [p] and data [d]. *)
Definition after_call (sub : overrides PriorityTableItem D) (p : pointer)
    (d : D) (c : call PriorityTableItem) : D :=
  resolve sub c {| table_ := p; derived := d |}.

Definition is_Unregister (o : op PriorityTableItem) : bool :=
  match o with
  | Unregister _ _ => true
  | _ => false
  end.

(** A registration that was refused. *)
Definition refused (e : event PriorityTableItem) : Prop :=
  match e with
  | Registered _ st => code st = FAILED_PRECONDITION
  | _ => True
  end.

End sequences.

(** ** Example data *)

Module Examples.

(** A rendering of pointers, as glibc prints them. *)
Definition show (p : pointer) : string :=
  match p with
  | nullptr => "(nil)"
  | addr l => HexString.of_pos l
  end.

(** Two tables, [queue] at address 1 and [replay] at address 2. *)
Definition h : tables :=
  <[1%positive := {| name := "queue" |}]>
    (<[2%positive := {| name := "replay" |}]> ∅).

Definition queue : pointer := addr 1.
Definition replay : pointer := addr 2.

(** Items are told apart by their key. *)
Definition item : Type := N.

(** An extension of the base class proper, without data of its own. *)
Definition unbound : state item unit := constructed tt.
Definition bound_to_queue : state item unit := assign_table_ queue unbound.

(** A subclass that overrides [ApplyOnSample] only and counts the calls. *)
Definition counting : overrides item nat :=
  λ c, match c with
       | ApplyOnSample _ => Some (λ obj, S (derived obj))
       | _ => None
       end.

Definition mu : pointer := addr 7.

(** Notifications the subclass [counting] does not override. *)
Definition unobserved : list (notification item) :=
  [Insert mu 1%N; Update mu 1%N; Reset mu; Delete mu 1%N].

(** Calls on a bound extension none of which unregisters. *)
Definition attempts : list (op item) :=
  [Register replay; Notify (Sample mu 5%N); Register queue;
   Notify (Reset mu)].

(** A history with a refused registration, a notification, and a second
    binding after the first was released. *)
Definition session : list (op item) :=
  [Register queue; Notify (Sample mu 5%N); Register replay;
   Unregister mu queue; Register nullptr; Register replay].

End Examples.

(** * Properties *)

(** Unfolds the monad down to the state function. *)
Ltac method_unfold :=
  unfold mbind, mret, M_bind, M_ret, bind, ret, get, put, modify, abort,
    undefined.

Section properties.

Context {PriorityTableItem D : Type}.
Variable show : pointer → string.
Variable h : tables.

Implicit Types (w : state PriorityTableItem D) (table mu : pointer).
Implicit Types (sub : overrides PriorityTableItem D).
Implicit Types (c : call PriorityTableItem) (item : PriorityTableItem).

(** *** Registration *)

Lemma assign_table__id w : assign_table_ (table_ (this w)) w = w.
Proof. by destruct w as [[] ?]. Qed.

Lemma table__assign_table_ table w : table_ (this (assign_table_ table w)) = table.
Proof. done. Qed.

Lemma RegisterTable_unbound w table :
  table_ (this w) = nullptr →
  RegisterTable show h table w = Returns (Status_OK, assign_table_ table w).
Proof.
  intros Hw. unfold RegisterTable, get_table_. method_unfold.
  by rewrite Hw.
Qed.

Lemma RegisterTable_bound w table T :
  table_ (this w) ≠ nullptr →
  deref h table = Some T →
  RegisterTable show h table w =
    Returns (FailedPrecondition
               ["Attempting to registering a table "; show table; " (name: ";
                name T; ") with extension that has already been ";
                "registered with: "; show (table_ (this w)); " (name: ";
                name T; ")"], w).
Proof.
  intros Hw HT. unfold RegisterTable, get_table_, Table_name. method_unfold.
  destruct (table_ (this w)) eqn:E; [done|]. simpl. by rewrite HT.
Qed.

Lemma RegisterTable_bound_dangling w table :
  table_ (this w) ≠ nullptr →
  deref h table = None →
  RegisterTable show h table w = Undefined.
Proof.
  intros Hw HT. unfold RegisterTable, get_table_, Table_name. method_unfold.
  destruct (table_ (this w)) eqn:E; [done|]. simpl. by rewrite HT.
Qed.

Lemma UnregisterTable_match w mu table :
  table = table_ (this w) →
  UnregisterTable mu table w = Returns (tt, assign_table_ nullptr w).
Proof.
  intros ->. unfold UnregisterTable, get_table_, REVERB_CHECK_EQ.
  method_unfold. by rewrite decide_True.
Qed.

Lemma UnregisterTable_mismatch w mu table :
  table ≠ table_ (this w) →
  UnregisterTable mu table w =
    Aborts "The wrong Table attempted to unregister this extension.".
Proof.
  intros Hne. unfold UnregisterTable, get_table_, REVERB_CHECK_EQ.
  method_unfold. by rewrite decide_False.
Qed.

Lemma RegisterTable_reads_requested_only (h' : tables) w table :
  deref h table = deref h' table →
  RegisterTable show h table w = RegisterTable show h' table w.
Proof.
  intros E. unfold RegisterTable, get_table_, Table_name. method_unfold.
  by rewrite E.
Qed.

(** *** Dispatch *)

Lemma virtual_eq sub c w :
  virtual sub c w =
    Returns (tt, {| this := {| table_ := table_ (this w);
                               derived := resolve sub c (this w) |};
                    calls := calls w ++ [c] |}).
Proof. done. Qed.

Lemma virtual_no_overrides c w :
  returns_with (virtual no_overrides c w) (λ _ w', this w' = this w).
Proof. destruct w as [[] ?]. by destruct c. Qed.

Lemma notify_table_ sub (n : notification PriorityTableItem) w :
  returns_with (notify sub n w) (λ _ w', table_ (this w') = table_ (this w)).
Proof. by destruct n. Qed.

Lemma notify_all_no_overrides (ns : list (notification PriorityTableItem)) w :
  returns_with (notify_all no_overrides ns w) (λ _ w', this w' = this w).
Proof.
  revert w. induction ns as [|n ns IH]; intros w; [done|].
  cbn [notify_all]. unfold mbind, M_bind, bind.
  assert (Hn : returns_with (notify no_overrides n w) (λ _ w', this w' = this w))
    by (destruct n; apply virtual_no_overrides).
  destruct (notify no_overrides n w) as [[[] w1]| |]; [|done..].
  simpl in Hn. specialize (IH w1).
  destruct (notify_all no_overrides ns w1) as [[[] w2]| |]; [|done..].
  simpl in *. congruence.
Qed.

(** *** Sequences of calls *)

Lemma ok_FailedPrecondition (args : list string) :
  ok (FailedPrecondition args) = false.
Proof. done. Qed.

Lemma exec_invariant sub (o : op PriorityTableItem) w e w' bs cur :
  exec show h sub o w = Returns (e, w') →
  bs = referenced (table_ (this w)) →
  table_ (this w) = default nullptr cur →
  track bs e = referenced (table_ (this w')) ∧
  table_ (this w') = default nullptr (latest cur e).
Proof.
  intros Hex -> Hcur. destruct o as [table|mu table|n]; cbn [exec] in Hex;
    unfold mbind, M_bind, bind in Hex.
  - destruct (decide (table_ (this w) = nullptr)) as [Hw|Hw].
    + rewrite RegisterTable_unbound in Hex by done.
      simpl in Hex. injection Hex as <- <-. simpl. rewrite Hw. simpl.
      by destruct table.
    + destruct (deref h table) as [T|] eqn:HT.
      * rewrite (RegisterTable_bound _ _ T) in Hex by done.
        simpl in Hex. injection Hex as <- <-. cbn [track latest].
        by rewrite ok_FailedPrecondition.
      * by rewrite RegisterTable_bound_dangling in Hex.
  - destruct (decide (table = table_ (this w))) as [Hw|Hw].
    + rewrite UnregisterTable_match in Hex by done.
      simpl in Hex. injection Hex as <- <-. subst table. simpl.
      unfold referenced. destruct (table_ (this w)); simpl; [done|].
      split; [|done]. rewrite filter_cons_False; [done|]. by intros ?.
    + by rewrite UnregisterTable_mismatch in Hex.
  - pose proof (notify_table_ sub n w) as Hn.
    destruct (notify sub n w) as [[[] w1]| |]; [|done..].
    simpl in Hex, Hn. injection Hex as <- <-. simpl. by rewrite Hn.
Qed.

Lemma run_invariant sub (os : list (op PriorityTableItem)) w es w' bs cur :
  run show h sub os w = Returns (es, w') →
  bs = referenced (table_ (this w)) →
  table_ (this w) = default nullptr cur →
  foldl track bs es = referenced (table_ (this w')) ∧
  table_ (this w') = default nullptr (foldl latest cur es).
Proof.
  revert w es bs cur. induction os as [|o os IH]; intros w es bs cur Hrun Hbs Hcur.
  - injection Hrun as <- <-. done.
  - cbn [run] in Hrun. unfold mbind, M_bind, bind in Hrun.
    destruct (exec show h sub o w) as [[e w1]| |] eqn:He; [|done..].
    destruct (run show h sub os w1) as [[es1 w2]| |] eqn:Hr; [|done..].
    simpl in Hrun. injection Hrun as <- <-.
    destruct (exec_invariant _ _ _ _ _ _ _ He Hbs Hcur) as [Hb Hc].
    simpl. by eapply IH.
Qed.

Lemma length_referenced (p : pointer) : length (referenced p) ≤ 1.
Proof. destruct p; simpl; lia. Qed.

(** *** The registration protocol *)

(** C1.  On an extension that is already bound, to the same table or to
    another one, [RegisterTable] of a table returns a failed-precondition
    error and leaves the back-reference as it was; on an unbound extension
    it sets the back-reference to its argument and returns success. *)
Theorem RegisterTable_bound_or_unbound w table :
  (table_ (this w) ≠ nullptr → is_Some (deref h table) →
     returns_with (RegisterTable show h table w)
       (λ st w', code st = FAILED_PRECONDITION ∧
                 table_ (this w') = table_ (this w))) ∧
  (table_ (this w) = nullptr →
     returns_with (RegisterTable show h table w)
       (λ st w', st = Status_OK ∧ table_ (this w') = table)).
Proof.
  split.
  - intros Hw [T HT]. by rewrite (RegisterTable_bound _ _ T).
  - intros Hw. by rewrite RegisterTable_unbound.
Qed.

(** C2.  In every state and for every argument, [UnregisterTable] of a
    table other than the one in the back-reference aborts the process;
    when the argument is the back-reference the check passes and the call
    returns, with the back-reference cleared. *)
Theorem UnregisterTable_aborts_iff_mismatch w mu table :
  (table ≠ table_ (this w) → ∃ msg, UnregisterTable mu table w = Aborts msg) ∧
  (table = table_ (this w) →
     UnregisterTable mu table w = Returns (tt, assign_table_ nullptr w)).
Proof.
  split; intros Hw.
  - eexists. by apply UnregisterTable_mismatch.
  - by apply UnregisterTable_match.
Qed.

(** C3.  From an unbound extension, registering a table [T] and then
    unregistering [T] succeeds and leaves the extension unbound, and
    registering any table [T2] afterwards succeeds. *)
Theorem Register_then_Unregister w mu T :
  table_ (this w) = nullptr →
  returns_with ((st ← RegisterTable show h T; UnregisterTable mu T;; mret st) w)
    (λ st w1, st = Status_OK ∧ table_ (this w1) = nullptr ∧
              ∀ T2, returns_with (RegisterTable show h T2 w1)
                      (λ st2 w2, st2 = Status_OK ∧ table_ (this w2) = T2)).
Proof.
  intros Hw. unfold mbind, M_bind, bind.
  rewrite RegisterTable_unbound by done.
  rewrite UnregisterTable_match by done. cbn [returns_with mret M_ret ret].
  split; [done|]. split; [done|].
  intros T2. by rewrite RegisterTable_unbound.
Qed.

(** C8.  [RegisterTable] of a null pointer on an unbound extension returns
    success although nothing checks the argument; the back-reference stays
    null, so registering any table afterwards still succeeds. *)
Theorem RegisterTable_nullptr_unchecked w :
  table_ (this w) = nullptr →
  returns_with (RegisterTable show h nullptr w)
    (λ st w1, st = Status_OK ∧ table_ (this w1) = nullptr ∧
              ∀ T2, returns_with (RegisterTable show h T2 w1)
                      (λ st2 w2, st2 = Status_OK ∧ table_ (this w2) = T2)).
Proof.
  intros Hw. rewrite RegisterTable_unbound by done. cbn [returns_with].
  split; [done|]. split; [done|].
  intros T2. by rewrite RegisterTable_unbound.
Qed.

(** C7.  After any sequence of registrations, unregistrations and
    notifications that ran from a newly constructed extension, at most one
    table is bound: the bound tables are exactly the table in the
    back-reference, and none when it is null.  The back-reference is the
    argument of the most recent successful registration that no
    unregistration followed, and null when there is no such registration. *)
Theorem reachable_binding sub (d : D) (os : list (op PriorityTableItem)) es w :
  run show h sub os (constructed d) = Returns (es, w) →
  length (bound_tables es) ≤ 1 ∧
  bound_tables es = referenced (table_ (this w)) ∧
  table_ (this w) = default nullptr (last_binding es).
Proof.
  intros Hrun.
  destruct (run_invariant sub os (constructed d) es w [] None Hrun)
    as [Hb Hl]; [done..|].
  unfold bound_tables, last_binding. rewrite Hb.
  split; [apply length_referenced|]. by split.
Qed.

(** *** Hook dispatch *)

(** C5.  In every state and for every item, each of [OnInsert],
    [OnDelete], [OnUpdate] and [OnSample] returns after calling its
    overridable method exactly once, on the item it was given, and
    [OnReset] after calling [ApplyOnReset] exactly once; none of them
    fails. *)
Theorem dispatch_once sub w mu item :
  dispatches sub w (ApplyOnInsert item) (OnInsert sub mu item w) ∧
  dispatches sub w (ApplyOnDelete item) (OnDelete sub mu item w) ∧
  dispatches sub w (ApplyOnUpdate item) (OnUpdate sub mu item w) ∧
  dispatches sub w (ApplyOnSample item) (OnSample sub mu item w) ∧
  dispatches sub w ApplyOnReset (OnReset sub mu w).
Proof. repeat split. Qed.

(** C6.  On a newly constructed extension of the base class, which
    overrides nothing, every sequence of notifications returns and leaves
    the object as it was constructed. *)
Theorem default_hooks_do_nothing (d : D) (ns : list (notification PriorityTableItem)) :
  returns_with (notify_all no_overrides ns (constructed d))
    (λ _ w', this w' = {| table_ := nullptr; derived := d |}).
Proof. apply notify_all_no_overrides. Qed.

(** C9.  The dispatch methods do not look at the binding: on an unbound
    extension each of them still returns after calling its overridable
    method once, on the item it was given, and the body that call resolves
    to has run on the object. *)
Theorem dispatch_when_unbound sub w mu item :
  table_ (this w) = nullptr →
  dispatches sub w (ApplyOnInsert item) (OnInsert sub mu item w) ∧
  dispatches sub w (ApplyOnDelete item) (OnDelete sub mu item w) ∧
  dispatches sub w (ApplyOnUpdate item) (OnUpdate sub mu item w) ∧
  dispatches sub w (ApplyOnSample item) (OnSample sub mu item w) ∧
  dispatches sub w ApplyOnReset (OnReset sub mu w).
Proof. intros _. repeat split. Qed.

(** C10.  In every state and for every item, the dispatch methods return
    with the back-reference they found. *)
Theorem dispatch_keeps_table_ sub w mu item :
  keeps_table_ w (OnInsert sub mu item w) ∧
  keeps_table_ w (OnDelete sub mu item w) ∧
  keeps_table_ w (OnUpdate sub mu item w) ∧
  keeps_table_ w (OnSample sub mu item w) ∧
  keeps_table_ w (OnReset sub mu w).
Proof. repeat split. Qed.

End properties.

(** ** The protocol on the example tables *)

Section examples.

Import Examples.

(** C4.  The code departs from the claim here.  Registering [replay] with
    an extension bound to [queue] fails with a text that gives the two
    addresses but, after each of them, the name of the requested table:
    the name of the bound table, [queue], is not in it. *)
Theorem RegisterTable_error_repeats_requested_name :
  RegisterTable show h replay bound_to_queue =
    Returns ({| code := FAILED_PRECONDITION;
                error_message :=
                  "Attempting to registering a table 0x2 (name: replay) with extension that has already been registered with: 0x1 (name: replay)" |},
             bound_to_queue).
Proof. vm_compute. reflexivity. Qed.

(** With a null argument the same call reads a name through the null
    pointer. *)
Example RegisterTable_bound_nullptr :
  RegisterTable show h nullptr bound_to_queue = Undefined.
Proof. reflexivity. Qed.

Lemma RegisterTable_bound_or_unbound_witness :
  returns_with (RegisterTable show h replay bound_to_queue)
    (λ st w', code st = FAILED_PRECONDITION ∧
              table_ (this w') = table_ (this bound_to_queue)) ∧
  returns_with (RegisterTable show h replay unbound)
    (λ st w', st = Status_OK ∧ table_ (this w') = replay).
Proof.
  split.
  - apply (proj1 (RegisterTable_bound_or_unbound show h bound_to_queue replay)).
    + discriminate.
    + exists {| name := "replay" |}. vm_compute. reflexivity.
  - apply (proj2 (RegisterTable_bound_or_unbound show h unbound replay)).
    reflexivity.
Defined.

Lemma UnregisterTable_aborts_iff_mismatch_witness :
  (∃ msg, UnregisterTable mu replay bound_to_queue = Aborts msg) ∧
  UnregisterTable mu queue bound_to_queue =
    Returns (tt, assign_table_ nullptr bound_to_queue).
Proof.
  split.
  - apply (proj1 (UnregisterTable_aborts_iff_mismatch bound_to_queue mu replay)).
    discriminate.
  - apply (proj2 (UnregisterTable_aborts_iff_mismatch bound_to_queue mu queue)).
    reflexivity.
Defined.

Lemma Register_then_Unregister_witness :
  returns_with
    ((st ← RegisterTable show h queue; UnregisterTable mu queue;; mret st) unbound)
    (λ st w1, st = Status_OK ∧ table_ (this w1) = nullptr ∧
              ∀ T2, returns_with (RegisterTable show h T2 w1)
                      (λ st2 w2, st2 = Status_OK ∧ table_ (this w2) = T2)).
Proof. apply (Register_then_Unregister show h unbound mu queue). reflexivity. Defined.

Lemma RegisterTable_nullptr_unchecked_witness :
  returns_with (RegisterTable show h nullptr unbound)
    (λ st w1, st = Status_OK ∧ table_ (this w1) = nullptr ∧
              ∀ T2, returns_with (RegisterTable show h T2 w1)
                      (λ st2 w2, st2 = Status_OK ∧ table_ (this w2) = T2)).
Proof. apply (RegisterTable_nullptr_unchecked show h unbound). reflexivity. Defined.

Lemma reachable_binding_witness :
  ∃ es w,
    run show h counting session (constructed 0) = Returns (es, w) ∧
    length (bound_tables es) ≤ 1 ∧
    bound_tables es = referenced (table_ (this w)) ∧
    table_ (this w) = default nullptr (last_binding es).
Proof.
  eexists _, _. split; [vm_compute; reflexivity|].
  apply (reachable_binding show h counting 0 session).
  vm_compute. reflexivity.
Defined.

(** The subclass that overrides [ApplyOnSample] only: the other
    notifications leave its count alone, each [OnSample] adds one. *)
Example counting_samples :
  notify_all counting [Sample mu 1%N; Insert mu 2%N; Sample mu 3%N; Reset mu]
    (constructed 0) =
  Returns (tt, {| this := {| table_ := nullptr; derived := 2 |};
                  calls := [ApplyOnSample 1%N; ApplyOnInsert 2%N;
                            ApplyOnSample 3%N; ApplyOnReset] |}).
Proof. reflexivity. Qed.

Lemma dispatch_when_unbound_witness :
  dispatches counting (constructed 0) (ApplyOnInsert 5%N)
    (OnInsert counting mu 5%N (constructed 0)) ∧
  dispatches counting (constructed 0) (ApplyOnDelete 5%N)
    (OnDelete counting mu 5%N (constructed 0)) ∧
  dispatches counting (constructed 0) (ApplyOnUpdate 5%N)
    (OnUpdate counting mu 5%N (constructed 0)) ∧
  dispatches counting (constructed 0) (ApplyOnSample 5%N)
    (OnSample counting mu 5%N (constructed 0)) ∧
  dispatches counting (constructed 0) ApplyOnReset
    (OnReset counting mu (constructed 0)).
Proof. apply (dispatch_when_unbound counting (constructed 0) mu 5%N). reflexivity. Defined.

End examples.

(** * Further properties of the registration protocol and of dispatch *)

Section further_properties.

Context {PriorityTableItem D : Type}.
Variable show : pointer → string.
Variable h : tables.

Implicit Types (w : state PriorityTableItem D) (table mu : pointer).
Implicit Types (sub : overrides PriorityTableItem D).
Implicit Types (ns : list (notification PriorityTableItem)).
Implicit Types (os : list (op PriorityTableItem)).

(** *** Helper lemmas *)

Lemma deref_delete_other (l : positive) table :
  table ≠ addr l → deref (delete l h) table = deref h table.
Proof.
  destruct table as [|l']; [done|]. intros Hne. simpl.
  apply lookup_delete_ne. congruence.
Qed.

Lemma notify_virtual sub (n : notification PriorityTableItem) w :
  notify sub n w = virtual sub (call_of n) w.
Proof. by destruct n. Qed.

Lemma notify_all_unfold sub ns w :
  notify_all sub ns w =
    Returns (tt, {| this := {| table_ := table_ (this w);
                               derived := foldl (after_call sub (table_ (this w)))
                                            (derived (this w)) (call_of <$> ns) |};
                    calls := calls w ++ (call_of <$> ns) |}).
Proof.
  revert w. induction ns as [|n ns IH]; intros w.
  - destruct w as [[] ?]. simpl. by rewrite app_nil_r.
  - cbn [notify_all]. unfold mbind, M_bind, bind.
    rewrite notify_virtual, virtual_eq, IH. destruct w as [[p d] cs].
    cbn [this table_ derived calls fmap list_fmap foldl].
    by rewrite <- app_assoc.
Qed.

Lemma foldl_not_overridden sub (p : pointer) (d : D) ns :
  Forall (λ n, sub (call_of n) = None) ns →
  foldl (after_call sub p) d (call_of <$> ns) = d.
Proof.
  induction 1 as [|n ns Hn _ IH]; [done|].
  cbn [fmap list_fmap foldl]. rewrite <- IH at 2. f_equal.
  unfold after_call, resolve. rewrite Hn. by destruct (call_of n).
Qed.

Lemma exec_keeps_binding sub (o : op PriorityTableItem) w e w' :
  table_ (this w) ≠ nullptr →
  is_Unregister o = false →
  exec show h sub o w = Returns (e, w') →
  table_ (this w') = table_ (this w) ∧ refused e.
Proof.
  intros Hw Ho Hex. destruct o as [table|mu table|n]; [| done |];
    cbn [exec] in Hex; unfold mbind, M_bind, bind in Hex.
  - destruct (deref h table) as [T|] eqn:HT.
    + rewrite (RegisterTable_bound _ _ _ _ T) in Hex by done.
      cbn in Hex. by injection Hex as <- <-.
    + by rewrite RegisterTable_bound_dangling in Hex.
  - pose proof (notify_table_ sub n w) as Hn.
    destruct (notify sub n w) as [[[] w1]| |]; [|done..].
    cbn in Hex, Hn. by injection Hex as <- <-.
Qed.

(** *** Registration *)

(** X1.  Registration and unregistration call no overridable method and
    leave the data of the subclass alone, whatever they return. *)
Theorem registration_calls_no_hook w mu table :
  (∀ st w', RegisterTable show h table w = Returns (st, w') →
            calls w' = calls w ∧ derived (this w') = derived (this w)) ∧
  (∀ w', UnregisterTable mu table w = Returns (tt, w') →
         calls w' = calls w ∧ derived (this w') = derived (this w)).
Proof.
  split.
  - intros st w' Hr. destruct (decide (table_ (this w) = nullptr)) as [Hw|Hw].
    + rewrite RegisterTable_unbound in Hr by done. by injection Hr as <- <-.
    + destruct (deref h table) as [T|] eqn:HT.
      * rewrite (RegisterTable_bound _ _ _ _ T) in Hr by done.
        by injection Hr as <- <-.
      * by rewrite RegisterTable_bound_dangling in Hr.
  - intros w' Hu. destruct (decide (table = table_ (this w))) as [Hw|Hw].
    + rewrite UnregisterTable_match in Hu by done. by injection Hu as <-.
    + by rewrite UnregisterTable_mismatch in Hu.
Qed.

(** X2.  [RegisterTable] never aborts.  It returns [OK] exactly on an
    unbound extension and [FAILED_PRECONDITION] exactly on a bound one whose
    argument points to a live table; on a bound extension with an argument
    that points to no live table, the null pointer included, its behaviour
    is undefined. *)
Theorem RegisterTable_outcome w table :
  match RegisterTable show h table w with
  | Returns (st, _) =>
      (code st = OK ∧ table_ (this w) = nullptr) ∨
      (code st = FAILED_PRECONDITION ∧ table_ (this w) ≠ nullptr ∧
       is_Some (deref h table))
  | Aborts _ => False
  | Undefined => table_ (this w) ≠ nullptr ∧ deref h table = None
  end.
Proof.
  destruct (decide (table_ (this w) = nullptr)) as [Hw|Hw].
  - rewrite RegisterTable_unbound by done. by left.
  - destruct (deref h table) as [T|] eqn:HT.
    + rewrite (RegisterTable_bound _ _ _ _ T) by done. right. eauto.
    + by rewrite RegisterTable_bound_dangling.
Qed.

(** X3.  Unregistering the bound table a second time aborts the process:
    the first call cleared the back-reference, which the second no longer
    matches. *)
Theorem Unregister_twice_aborts w mu mu' table :
  table ≠ nullptr →
  table = table_ (this w) →
  (UnregisterTable mu table;; UnregisterTable mu' table) w =
    Aborts "The wrong Table attempted to unregister this extension.".
Proof.
  intros Hn Hw. unfold mbind, M_bind, bind.
  rewrite UnregisterTable_match by done.
  by rewrite UnregisterTable_mismatch.
Qed.

(** X4.  The text of the error of a refused registration carries, in this
    order, the rendering of the requested pointer, the name of the requested
    table and the rendering of the back-reference. *)
Theorem RegisterTable_error_text w table st w' :
  table_ (this w) ≠ nullptr →
  RegisterTable show h table w = Returns (st, w') →
  ∃ T pre mid mid' post,
    deref h table = Some T ∧
    error_message st =
      pre +:+ show table +:+ mid +:+ name T +:+ mid' +:+
      show (table_ (this w)) +:+ post.
Proof.
  intros Hw Hr. destruct (deref h table) as [T|] eqn:HT.
  - rewrite (RegisterTable_bound _ _ _ _ T) in Hr by done.
    injection Hr as <- <-.
    exists T, "Attempting to registering a table ", " (name: ",
      ") with extension that has already been registered with: ",
      (" (name: " +:+ name T +:+ ")").
    split; [done|]. reflexivity.
  - by rewrite RegisterTable_bound_dangling in Hr.
Qed.

(** X5.  [RegisterTable] reads no table but the one its argument points to:
    when any other table, the bound one included, is destroyed, its outcome
    is the same. *)
Theorem RegisterTable_reads_no_other_table (l : positive) w table :
  table ≠ addr l →
  RegisterTable show (delete l h) table w = RegisterTable show h table w.
Proof.
  intros Hne. apply RegisterTable_reads_requested_only.
  by apply deref_delete_other.
Qed.

(** *** Dispatch *)

(** X6.  A sequence of notifications never fails, whatever the subclass.
    Its overridable methods are called in the order of the notifications,
    one for each; each body runs on the data the one before left and sees
    the back-reference, which stays as it was. *)
Theorem notify_all_in_order sub ns w :
  returns_with (notify_all sub ns w)
    (λ _ w', calls w' = calls w ++ (call_of <$> ns) ∧
             table_ (this w') = table_ (this w) ∧
             derived (this w') =
               foldl (after_call sub (table_ (this w))) (derived (this w))
                 (call_of <$> ns)).
Proof. by rewrite notify_all_unfold. Qed.

(** X7.  Notifications whose methods the subclass does not override leave
    the object as it was, in every state. *)
Theorem not_overridden_does_nothing sub ns w :
  Forall (λ n, sub (call_of n) = None) ns →
  returns_with (notify_all sub ns w) (λ _ w', this w' = this w).
Proof.
  intros Hns. rewrite notify_all_unfold. cbn [returns_with this].
  rewrite foldl_not_overridden by done. by destruct w as [[] ?].
Qed.

(** *** Sessions *)

(** X8.  From an unbound extension, registering a table, any notifications
    and unregistering the same table all return: the registration succeeds,
    the bodies ran in order and saw the table in the back-reference, and the
    extension ends unbound. *)
Theorem bracketed_session sub w mu table ns :
  table_ (this w) = nullptr →
  returns_with
    ((st ← RegisterTable show h table; notify_all sub ns;;
      UnregisterTable mu table;; mret st) w)
    (λ st w', st = Status_OK ∧ table_ (this w') = nullptr ∧
              calls w' = calls w ++ (call_of <$> ns) ∧
              derived (this w') =
                foldl (after_call sub table) (derived (this w)) (call_of <$> ns)).
Proof.
  intros Hw. unfold mbind, M_bind, bind.
  rewrite RegisterTable_unbound by done.
  rewrite notify_all_unfold.
  rewrite UnregisterTable_match by done. done.
Qed.

(** X9.  Only [UnregisterTable] releases a binding: a sequence of calls
    without it that runs on a bound extension leaves the back-reference as
    it was, and every registration in it was refused. *)
Theorem binding_kept_without_Unregister sub os w es w' :
  table_ (this w) ≠ nullptr →
  Forall (λ o, is_Unregister o = false) os →
  run show h sub os w = Returns (es, w') →
  table_ (this w') = table_ (this w) ∧ Forall refused es.
Proof.
  intros Hw Hos. revert w es Hw.
  induction Hos as [|o os Ho _ IH]; intros w es Hw Hrun.
  - by injection Hrun as <- <-.
  - cbn [run] in Hrun. unfold mbind, M_bind, bind in Hrun.
    destruct (exec show h sub o w) as [[e w1]| |] eqn:He; [|done..].
    destruct (run show h sub os w1) as [[es1 w2]| |] eqn:Hr; [|done..].
    cbn in Hrun. injection Hrun as <- <-.
    destruct (exec_keeps_binding _ _ _ _ _ Hw Ho He) as [Ht Hre].
    destruct (IH w1 es1) as [Ht' Hes]; [congruence|done|].
    split; [congruence|by constructor].
Qed.

End further_properties.

(** ** Further properties on the example tables *)

Section further_examples.

Import Examples.

Lemma registration_calls_no_hook_witness :
  (calls (assign_table_ replay unbound) = calls unbound ∧
   derived (this (assign_table_ replay unbound)) = derived (this unbound)) ∧
  (calls (assign_table_ nullptr bound_to_queue) = calls bound_to_queue ∧
   derived (this (assign_table_ nullptr bound_to_queue)) =
     derived (this bound_to_queue)).
Proof.
  split.
  - apply (proj1 (registration_calls_no_hook show h unbound mu replay) Status_OK).
    reflexivity.
  - apply (proj2 (registration_calls_no_hook show h bound_to_queue mu queue)).
    reflexivity.
Defined.

Lemma Unregister_twice_aborts_witness :
  (UnregisterTable mu queue;; UnregisterTable nullptr queue) bound_to_queue =
    Aborts "The wrong Table attempted to unregister this extension.".
Proof.
  apply (Unregister_twice_aborts bound_to_queue mu nullptr queue).
  - discriminate.
  - reflexivity.
Defined.

Lemma RegisterTable_error_text_witness :
  ∃ st w',
    RegisterTable show h replay bound_to_queue = Returns (st, w') ∧
    ∃ T pre mid mid' post,
      deref h replay = Some T ∧
      error_message st =
        pre +:+ show replay +:+ mid +:+ name T +:+ mid' +:+
        show (table_ (this bound_to_queue)) +:+ post.
Proof.
  eexists _, _. split; [vm_compute; reflexivity|].
  eapply (RegisterTable_error_text show h bound_to_queue replay).
  - discriminate.
  - vm_compute. reflexivity.
Defined.

Lemma RegisterTable_reads_no_other_table_witness :
  RegisterTable show (delete 1%positive h) replay bound_to_queue =
    RegisterTable show h replay bound_to_queue.
Proof.
  apply (RegisterTable_reads_no_other_table show h 1%positive bound_to_queue replay).
  discriminate.
Defined.

Lemma not_overridden_does_nothing_witness :
  returns_with (notify_all counting unobserved (constructed 7))
    (λ _ w', this w' = {| table_ := nullptr; derived := 7 |}).
Proof.
  apply (not_overridden_does_nothing counting unobserved (constructed 7)).
  repeat (constructor; [reflexivity|]). constructor.
Defined.

Lemma bracketed_session_witness :
  returns_with
    ((st ← RegisterTable show h queue;
      notify_all counting [Sample mu 1%N; Insert mu 2%N; Sample mu 3%N];;
      UnregisterTable mu queue;; mret st) (constructed 0))
    (λ st w', st = Status_OK ∧ table_ (this w') = nullptr ∧
              calls w' = [ApplyOnSample 1%N; ApplyOnInsert 2%N; ApplyOnSample 3%N] ∧
              derived (this w') = 2).
Proof.
  apply (bracketed_session show h counting (constructed 0) mu queue
           [Sample mu 1%N; Insert mu 2%N; Sample mu 3%N]).
  reflexivity.
Defined.

Lemma binding_kept_without_Unregister_witness :
  ∃ es w',
    run show h counting attempts (assign_table_ queue (constructed 0)) =
      Returns (es, w') ∧
    table_ (this w') = queue ∧ Forall refused es.
Proof.
  eexists _, _. split; [vm_compute; reflexivity|].
  apply (binding_kept_without_Unregister show h counting attempts
           (assign_table_ queue (constructed 0))).
  - discriminate.
  - repeat (constructor; [reflexivity|]). constructor.
  - vm_compute. reflexivity.
Defined.

End further_examples.
